(** * fm: target selection and filter parsing of the action commands

    A shallow embedding of [cmd/filters.go] (flag inspection, filter
    parsing, target validation and target resolution) together with the
    parts of the command line library and of the mail client it talks to. *)

From Stdlib Require Import ZArith NArith Lia Bool Ascii String List.
From stdpp Require Import base option list strings gmap.

Local Open Scope string_scope.

(** ** Go strings

    A Go string is a sequence of bytes; [string] (a list of [ascii]) is
    used for it, one [ascii] per byte. *)

Module GoStrings.

Definition byte (n : N) : ascii := ascii_of_N n.

Fixpoint bytes (l : list N) : string :=
  match l with
  | [] => EmptyString
  | n :: l' => String (byte n) (bytes l')
  end.

Definition code (c : ascii) : N := N_of_ascii c.

(** The six bytes of [strings.asciiSpace]: tab, line feed, vertical tab,
    form feed, carriage return and space. *)
Definition asciiSpace (c : ascii) : bool :=
  let n := code c in
  ((9 <=? n) && (n <=? 13) || (n =? 32))%N.

(** [unicode.IsSpace] on a rune given by its two-byte UTF-8 encoding:
    U+0085 (NEL) and U+00A0 (NBSP). *)
Definition space2 (c1 c2 : ascii) : bool :=
  let a := code c1 in let b := code c2 in
  ((a =? 194) && ((b =? 133) || (b =? 160)))%N.

(** [unicode.IsSpace] on a rune given by its three-byte UTF-8 encoding:
    U+1680, U+2000..U+200A, U+2028, U+2029, U+202F, U+205F, U+3000. *)
Definition space3 (c1 c2 c3 : ascii) : bool :=
  let a := code c1 in let b := code c2 in let c := code c3 in
  ((a =? 225) && (b =? 154) && (c =? 128)
   || (a =? 226) && (b =? 128)
      && ((128 <=? c) && (c <=? 138) || (c =? 168) || (c =? 169) || (c =? 175))
   || (a =? 226) && (b =? 129) && (c =? 159)
   || (a =? 227) && (b =? 128) && (c =? 128))%N.

(** Drop the leading white-space runes of a byte sequence. *)
Fixpoint trimLeft (s : list ascii) : list ascii :=
  match s with
  | [] => []
  | c1 :: r1 =>
      if asciiSpace c1 then trimLeft r1
      else match r1 with
           | [] => s
           | c2 :: r2 =>
               if space2 c1 c2 then trimLeft r2
               else match r2 with
                    | [] => s
                    | c3 :: r3 => if space3 c1 c2 c3 then trimLeft r3 else s
                    end
           end
  end.

(** The same from the end, on the reversed byte sequence: the last rune
    is a space exactly when the sequence ends with one of the encodings
    above. *)
Fixpoint trimLeftRev (s : list ascii) : list ascii :=
  match s with
  | [] => []
  | c1 :: r1 =>
      if asciiSpace c1 then trimLeftRev r1
      else match r1 with
           | [] => s
           | c2 :: r2 =>
               if space2 c2 c1 then trimLeftRev r2
               else match r2 with
                    | [] => s
                    | c3 :: r3 => if space3 c3 c2 c1 then trimLeftRev r3 else s
                    end
           end
  end.

(** A byte sequence made of white-space runes only. *)
Inductive onlySpace : list ascii -> Prop :=
| onlySpace_nil : onlySpace []
| onlySpace_1 (c : ascii) (r : list ascii) :
    asciiSpace c = true -> onlySpace r -> onlySpace (c :: r)
| onlySpace_2 (c1 c2 : ascii) (r : list ascii) :
    space2 c1 c2 = true -> onlySpace r -> onlySpace (c1 :: c2 :: r)
| onlySpace_3 (c1 c2 c3 : ascii) (r : list ascii) :
    space3 c1 c2 c3 = true -> onlySpace r -> onlySpace (c1 :: c2 :: c3 :: r).

(** [strings.TrimSpace]: all leading and trailing white space removed,
    as defined by Unicode. *)
Definition TrimSpace (s : string) : string :=
  string_of_list_ascii
    (rev (trimLeftRev (rev (trimLeft (list_ascii_of_string s))))).

(** ASCII lower-casing of one byte and of a string. *)
Definition lowerByte (c : ascii) : ascii :=
  let n := code c in
  if ((65 <=? n) && (n <=? 90))%N then byte (n + 32) else c.

Fixpoint ToLowerASCII (s : string) : string :=
  match s with
  | EmptyString => EmptyString
  | String c r => String (lowerByte c) (ToLowerASCII r)
  end.

Definition eqb (a b : string) : bool := bool_decide (a = b).

Definition isEmpty (s : string) : bool := eqb s "".

End GoStrings.

Import GoStrings.


(** ** Results

    A Go function returning [(T, error)] returns the zero value of [T]
    with a non-nil error; [result E T] keeps the one that matters. *)

Inductive result (E A : Type) : Type :=
| Ok (a : A)
| Err (e : E).
Arguments Ok {E A} a.
Arguments Err {E A} e.

(** ** The flag library (spf13/pflag) as the commands use it *)

Module pflag.

(** The two kinds of [Value] registered by the action commands. *)
Inductive Value : Type :=
| stringValue (s : string)
| boolValue (b : bool).

Definition Value_Type (v : Value) : string :=
  match v with
  | stringValue _ => "string"
  | boolValue _ => "bool"
  end.

Record Flag : Type := mkFlag {
  Name : string;
  Shorthand : string;
  Usage : string;
  Val : Value;
  Changed : bool
}.

(** [formal] maps a flag name to its flag, [shorthands] a one-letter
    shorthand to the name of its flag. A flag is in Go's [actual] map
    exactly when its [Changed] field is set. *)
Record FlagSet : Type := mkFlagSet {
  formal : gmap string Flag;
  shorthands : gmap string string
}.

Definition NewFlagSet : FlagSet := mkFlagSet ∅ ∅.

(** [AddFlag] panics ([None]) on a redefined name, on a shorthand of
    more than one byte and on a shorthand already in use. *)
Definition AddFlag (f : FlagSet) (flag : Flag) : option FlagSet :=
  match formal f !! Name flag with
  | Some _ => None
  | None =>
      let formal' := <[Name flag := flag]> (formal f) in
      if isEmpty (Shorthand flag) then Some (mkFlagSet formal' (shorthands f))
      else if (1 <? String.length (Shorthand flag))%nat then None
      else match shorthands f !! Shorthand flag with
           | Some _ => None
           | None =>
               Some (mkFlagSet formal'
                       (<[Shorthand flag := Name flag]> (shorthands f)))
           end
  end.

Definition StringP (f : FlagSet) (name shorthand value usage : string)
  : option FlagSet :=
  AddFlag f (mkFlag name shorthand usage (stringValue value) false).

Definition String (f : FlagSet) (name value usage : string) : option FlagSet :=
  StringP f name "" value usage.

Definition BoolP (f : FlagSet) (name shorthand : string) (value : bool)
  (usage : string) : option FlagSet :=
  AddFlag f (mkFlag name shorthand usage (boolValue value) false).

Definition Bool (f : FlagSet) (name : string) (value : bool) (usage : string)
  : option FlagSet :=
  BoolP f name "" value usage.

Definition Lookup (f : FlagSet) (name : string) : option Flag :=
  formal f !! name.

Definition FlagSet_Changed (f : FlagSet) (name : string) : bool :=
  match formal f !! name with
  | Some flag => Changed flag
  | None => false
  end.

(** [GetString] and [GetBool] return the zero value together with an
    error when the flag is not defined or is of another type; the
    commands drop that error, so only the value is kept here. *)
Definition GetString (f : FlagSet) (name : string) : string :=
  match formal f !! name with
  | Some (mkFlag _ _ _ (stringValue s) _) => s
  | _ => ""
  end.

Definition GetBool (f : FlagSet) (name : string) : bool :=
  match formal f !! name with
  | Some (mkFlag _ _ _ (boolValue b) _) => b
  | _ => false
  end.

(** [strconv.ParseBool]. *)
Definition ParseBool (s : string) : option bool :=
  if existsb (eqb s) ["1"; "t"; "T"; "TRUE"; "true"; "True"] then Some true
  else if existsb (eqb s) ["0"; "f"; "F"; "FALSE"; "false"; "False"]
       then Some false
       else None.

(** [FlagSet.Set]: the new flag set and whether an error was returned.
    A string flag takes any value; a bool flag is assigned the parsed
    value ([false] when parsing fails) and the call fails when parsing
    does. [Changed] is set on success only. *)
Definition Set_ (f : FlagSet) (name value : string) : FlagSet * bool :=
  match formal f !! name with
  | None => (f, true)
  | Some flag =>
      let store (v : Value) (changed : bool) :=
        mkFlagSet
          (<[name := mkFlag (Name flag) (Shorthand flag) (Usage flag) v changed]>
             (formal f))
          (shorthands f) in
      match Val flag with
      | stringValue _ => (store (stringValue value) true, false)
      | boolValue _ =>
          match ParseBool value with
          | Some b => (store (boolValue b) true, false)
          | None => (store (boolValue false) (Changed flag), true)
          end
      end
  end.

End pflag.

(** ** A command (spf13/cobra): its name and its flag set *)

Module cobra.

Record Command : Type := mkCommand {
  Use : string;
  Flags : pflag.FlagSet
}.

Definition withFlags (cmd : Command) (f : pflag.FlagSet) : Command :=
  mkCommand (Use cmd) f.

(** [cmd.Flags().Set(name, value)], keeping the command. *)
Definition SetFlag (cmd : Command) (name value : string) : Command :=
  withFlags cmd (fst (pflag.Set_ (Flags cmd) name value)).

End cobra.

Import cobra.

(** ** Time values and the mail client *)

(** A [time.Time] as a civil date and time with its zone offset in
    seconds east of UTC. *)
Record Time : Type := mkTime {
  year : Z; month : Z; day : Z;
  hour : Z; minute : Z; second : Z; nanosecond : Z;
  zoneOffset : Z
}.

Module client.

(** The fields of [client.SearchOptions] that cmd/filters.go assigns. *)
Record SearchOptions : Type := mkSearchOptions {
  MailboxID : string;
  From : string;
  To : string;
  Subject : string;
  Before : option Time;
  After : option Time;
  HasAttachment : bool;
  UnreadOnly : bool;
  FlaggedOnly : bool;
  UnflaggedOnly : bool
}.

(** [client.SearchOptions{}]. *)
Definition zero : SearchOptions :=
  mkSearchOptions "" "" "" "" None None false false false false.

(** A call that reaches the mail server. *)
Inductive NetCall : Type :=
| CallResolveMailboxID (name : string)
| CallQueryEmailIDs (opts : SearchOptions).

(** The calls issued so far, oldest first. *)
Definition Net : Type := list NetCall.

(** Modelled from the spec: the client of internal/client is not among
    the sources. It is known by what the server answers: an identifier or
    an error text for a mailbox name, a list of identifiers or an error
    text for a query. *)
Record Client : Type := mkClient {
  mailboxAnswer : string -> result string string;
  queryAnswer : SearchOptions -> result string (list string)
}.

(** Modelled from the spec: mailbox resolution and the identifier query
    are each one call to the server. *)
Definition ResolveMailboxID (c : Client) (name : string) (net : Net)
  : result string string * Net :=
  (mailboxAnswer c name, (net ++ [CallResolveMailboxID name])%list).

Definition QueryEmailIDs (c : Client) (opts : SearchOptions) (net : Net)
  : result string (list string) * Net :=
  (queryAnswer c opts, (net ++ [CallQueryEmailIDs opts])%list).

End client.

Import client.

(** ** Layouts of the time library, and a reference parser

    [cmd/filters.go] calls [time.Parse] with two layouts. The embedding of
    the commands takes the library parser as a parameter; [RefTime.Parse]
    is an instance of it on the fixed-width forms of the two layouts, used
    to run the commands on concrete command lines. *)

Definition time_RFC3339 : string := "2006-01-02T15:04:05Z07:00".
Definition layoutDateOnly : string := "2006-01-02".

Module RefTime.

Local Open Scope Z_scope.

Definition digit (c : ascii) : option Z :=
  let n := Z.of_N (code c) in
  if (48 <=? n) && (n <=? 57) then Some (n - 48) else None.

Definition num2 (c1 c2 : ascii) : option Z :=
  d1 ← digit c1; d2 ← digit c2; Some (10 * d1 + d2).

Definition isLeap (y : Z) : bool :=
  (y mod 4 =? 0) && (negb (y mod 100 =? 0) || (y mod 400 =? 0)).

Definition daysIn (m y : Z) : Z :=
  if m =? 2 then (if isLeap y then 29 else 28)
  else if existsb (Z.eqb m) [4; 6; 9; 11] then 30 else 31.

Definition inRange (lo x hi : Z) : bool := (lo <=? x) && (x <=? hi).

(** [YYYY-MM-DD] at the head of the input: the three fields and the
    rest. *)
Definition parseDay (s : list ascii) : option (Z * Z * Z * list ascii) :=
  match s with
  | y1 :: y2 :: y3 :: y4 :: "-"%char :: m1 :: m2 :: "-"%char :: d1 :: d2 :: rest =>
      yh ← num2 y1 y2; yl ← num2 y3 y4; m ← num2 m1 m2; d ← num2 d1 d2;
      let y := 100 * yh + yl in
      if inRange 1 m 12 && inRange 1 d (daysIn m y)
      then Some (y, m, d, rest) else None
  | _ => None
  end.

(** [hh:mm:ss] at the head of the input. *)
Definition parseClock (s : list ascii) : option (Z * Z * Z * list ascii) :=
  match s with
  | h1 :: h2 :: ":"%char :: m1 :: m2 :: ":"%char :: s1 :: s2 :: rest =>
      h ← num2 h1 h2; m ← num2 m1 m2; sec ← num2 s1 s2;
      if inRange 0 h 23 && inRange 0 m 59 && inRange 0 sec 59
      then Some (h, m, sec, rest) else None
  | _ => None
  end.

(** [Z] or a signed [hh:mm] offset, up to the end of the input. *)
Definition parseZone (s : list ascii) : option Z :=
  match s with
  | ["Z"%char] => Some 0
  | sign :: h1 :: h2 :: ":"%char :: m1 :: m2 :: [] =>
      h ← num2 h1 h2; m ← num2 m1 m2;
      if inRange 0 h 23 && inRange 0 m 59 then
        if Ascii.eqb sign "+" then Some (h * 3600 + m * 60)
        else if Ascii.eqb sign "-" then Some (- (h * 3600 + m * 60))
        else None
      else None
  | _ => None
  end.

Definition parseRFC3339 (s : list ascii) : option Time :=
  '(y, m, d, rest) ← parseDay s;
  match rest with
  | "T"%char :: rest' =>
      '(h, mi, sec, rest'') ← parseClock rest';
      off ← parseZone rest'';
      Some (mkTime y m d h mi sec 0 off)
  | _ => None
  end.

Definition parseDateOnly (s : list ascii) : option Time :=
  '(y, m, d, rest) ← parseDay s;
  match rest with
  | [] => Some (mkTime y m d 0 0 0 0 0)
  | _ => None
  end.

Definition errorText (layout value : string) : string :=
  "parsing time " ++ value ++ " as " ++ layout ++ ": cannot parse".

Definition Parse (layout value : string) : result string Time :=
  let parsed :=
    if eqb layout time_RFC3339 then parseRFC3339 (list_ascii_of_string value)
    else if eqb layout layoutDateOnly then parseDateOnly (list_ascii_of_string value)
    else None in
  match parsed with
  | Some t => Ok t
  | None => Err (errorText layout value)
  end.

End RefTime.

(** ** Errors of the commands

    [exitError] writes a structured error (code, message, hint) to the
    error stream and returns the sentinel [ErrSilent]; the embedding keeps
    the structure that was written. *)

Record ExitError : Type := mkExitError {
  errCode : string;
  errMessage : string;
  errHint : string
}.

Definition exitError (code message hint : string) : ExitError :=
  mkExitError code message hint.

(** The kinds of the specification, as the structured errors the code
    writes for them. *)
Definition ConflictingFilters : ExitError :=
  exitError "general_error" "--flagged and --unflagged are mutually exclusive" "".

Definition AmbiguousTargets : ExitError :=
  exitError "general_error" "cannot combine email IDs with filter flags"
    "Use either email IDs or filter flags, not both".

Definition NoTargets : ExitError :=
  exitError "general_error" "no emails specified"
    "Provide email IDs as arguments or use filter flags (e.g. --mailbox inbox --unread)".

Definition NoMatches : ExitError :=
  exitError "not_found" "no emails matched the given filters" "".



(** ** Computations that may call the server and may fail *)

Definition M (A : Type) : Type := Net -> result ExitError A * Net.

Definition ret {A : Type} (a : A) : M A := fun net => (Ok a, net).

Definition throw {A : Type} (e : ExitError) : M A := fun net => (Err e, net).

Definition bind {A B : Type} (m : M A) (k : A -> M B) : M B :=
  fun net =>
    match m net with
    | (Ok a, net') => k a net'
    | (Err e, net') => (Err e, net')
    end.

(** A client call: its own result is handed to the caller, who decides
    what an error becomes. *)
Definition call {A : Type} (f : Net -> result string A * Net)
  : M (result string A) :=
  fun net => let '(r, net') := f net in (Ok r, net').

Notation "x <- m ;; k" := (bind m (fun x => k))
  (at level 100, m at next level, right associativity).

(** Field updates of [SearchOptions] ([opts.From = from] and the like). *)
Definition set_MailboxID (v : string) (o : SearchOptions) : SearchOptions :=
  mkSearchOptions v (From o) (To o) (Subject o) (Before o) (After o)
    (HasAttachment o) (UnreadOnly o) (FlaggedOnly o) (UnflaggedOnly o).
Definition set_From (v : string) (o : SearchOptions) : SearchOptions :=
  mkSearchOptions (MailboxID o) v (To o) (Subject o) (Before o) (After o)
    (HasAttachment o) (UnreadOnly o) (FlaggedOnly o) (UnflaggedOnly o).
Definition set_To (v : string) (o : SearchOptions) : SearchOptions :=
  mkSearchOptions (MailboxID o) (From o) v (Subject o) (Before o) (After o)
    (HasAttachment o) (UnreadOnly o) (FlaggedOnly o) (UnflaggedOnly o).
Definition set_Subject (v : string) (o : SearchOptions) : SearchOptions :=
  mkSearchOptions (MailboxID o) (From o) (To o) v (Before o) (After o)
    (HasAttachment o) (UnreadOnly o) (FlaggedOnly o) (UnflaggedOnly o).
Definition set_Before (v : option Time) (o : SearchOptions) : SearchOptions :=
  mkSearchOptions (MailboxID o) (From o) (To o) (Subject o) v (After o)
    (HasAttachment o) (UnreadOnly o) (FlaggedOnly o) (UnflaggedOnly o).
Definition set_After (v : option Time) (o : SearchOptions) : SearchOptions :=
  mkSearchOptions (MailboxID o) (From o) (To o) (Subject o) (Before o) v
    (HasAttachment o) (UnreadOnly o) (FlaggedOnly o) (UnflaggedOnly o).
Definition set_bools (ha un fl uf : bool) (o : SearchOptions) : SearchOptions :=
  mkSearchOptions (MailboxID o) (From o) (To o) (Subject o) (Before o) (After o)
    ha un fl uf.

(** ** cmd/filters.go *)

Definition recipientToUsage : string := "filter by recipient address/name".

(** [filterFlagNames] lists all flags that [addFilterFlags] may register. *)
Definition filterFlagNames : list string :=
  ["mailbox"; "from"; "to"; "subject";
   "before"; "after"; "has-attachment";
   "unread"; "flagged"; "unflagged"].

(** [addFilterFlags] registers the shared filter flags; it skips [--to]
    if the command already defines that flag. [None] is a panic of the
    flag library. *)
Definition addFilterFlags (cmd : Command) : option Command :=
  f ← pflag.StringP (Flags cmd) "mailbox" "m" "" "restrict to a specific mailbox";
  f ← pflag.String f "from" "" "filter by sender address/name";
  f ← match pflag.Lookup f "to" with
      | None => pflag.String f "to" "" recipientToUsage
      | Some _ => Some f
      end;
  f ← pflag.String f "subject" "" "filter by subject text";
  f ← pflag.String f "before" ""
        "emails received before this date (RFC 3339 or YYYY-MM-DD)";
  f ← pflag.String f "after" ""
        "emails received after this date (RFC 3339 or YYYY-MM-DD)";
  f ← pflag.Bool f "has-attachment" false "only emails with attachments";
  f ← pflag.BoolP f "unread" "u" false "only unread messages";
  f ← pflag.BoolP f "flagged" "f" false "only flagged messages";
  f ← pflag.Bool f "unflagged" false "only unflagged messages";
  Some (withFlags cmd f).

Definition isRecipientToFilterFlag (cmd : Command) : bool :=
  match pflag.Lookup (Flags cmd) "to" with
  | Some f => eqb (pflag.Usage f) recipientToUsage
  | None => false
  end.

(** The two arms of the [switch] on the flag name. *)
Definition stringFilterNames : list string :=
  ["mailbox"; "from"; "to"; "subject"; "before"; "after"].
Definition boolFilterNames : list string :=
  ["has-attachment"; "unread"; "flagged"; "unflagged"].

(** The loop of [hasFilterFlags] over the remaining names: [true] as soon
    as one flag has an effective value. *)
Fixpoint hasFilterFlags_loop (cmd : Command) (names : list string) : bool :=
  match names with
  | [] => false
  | name :: rest =>
      match pflag.Lookup (Flags cmd) name with
      | None => hasFilterFlags_loop cmd rest
      | Some _ =>
          if negb (pflag.FlagSet_Changed (Flags cmd) name)
          then hasFilterFlags_loop cmd rest
          else if existsb (eqb name) stringFilterNames then
            if eqb name "to" && negb (isRecipientToFilterFlag cmd)
            then hasFilterFlags_loop cmd rest
            else if negb (isEmpty (TrimSpace (pflag.GetString (Flags cmd) name)))
                 then true
                 else hasFilterFlags_loop cmd rest
          else if existsb (eqb name) boolFilterNames then
            if pflag.GetBool (Flags cmd) name then true
            else hasFilterFlags_loop cmd rest
          else hasFilterFlags_loop cmd rest
      end
  end.

Definition hasFilterFlags (cmd : Command) : bool :=
  hasFilterFlags_loop cmd filterFlagNames.

(** [validateIDsOrFilters]: [None] is the nil error. *)
Definition validateIDsOrFilters (cmd : Command) (args : list string)
  : option ExitError :=
  let hasIDs := (0 <? length args)%nat in
  let hasFilters := hasFilterFlags cmd in
  if hasIDs && hasFilters then
    Some (exitError "general_error" "cannot combine email IDs with filter flags"
            "Use either email IDs or filter flags, not both")
  else if negb hasIDs && negb hasFilters then
    Some (exitError "general_error" "no emails specified"
            "Provide email IDs as arguments or use filter flags (e.g. --mailbox inbox --unread)")
  else
    let flagged := pflag.GetBool (Flags cmd) "flagged" in
    let unflagged := pflag.GetBool (Flags cmd) "unflagged" in
    if flagged && unflagged then
      Some (exitError "general_error"
              "--flagged and --unflagged are mutually exclusive" "")
    else None.

Section Filters.

(** [time.Parse layout value] of the Go library. *)
Variable time_Parse : string -> string -> result string Time.

(** [parseDate] parses a date string in RFC 3339 format or as a bare
    date; when both fail the error of the first attempt is returned. *)
Definition parseDate (s : string) : result string Time :=
  match time_Parse time_RFC3339 s with
  | Ok t => Ok t
  | Err err =>
      match time_Parse "2006-01-02" s with
      | Ok t => Ok t
      | Err _ => Err err
      end
  end.

(** [parseFilterOptions] reads the filter flags and builds the search
    options. *)
Definition parseFilterOptions (cmd : Command) (c : Client) : M SearchOptions :=
  let opts := client.zero in
  let from := pflag.GetString (Flags cmd) "from" in
  let opts := if negb (isEmpty (TrimSpace from)) then set_From from opts
              else opts in
  let opts :=
    if isRecipientToFilterFlag cmd then
      let to := pflag.GetString (Flags cmd) "to" in
      if negb (isEmpty (TrimSpace to)) then set_To to opts else opts
    else opts in
  let subject := pflag.GetString (Flags cmd) "subject" in
  let opts := if negb (isEmpty (TrimSpace subject)) then set_Subject subject opts
              else opts in
  let opts :=
    set_bools (pflag.GetBool (Flags cmd) "has-attachment")
      (pflag.GetBool (Flags cmd) "unread")
      (pflag.GetBool (Flags cmd) "flagged")
      (pflag.GetBool (Flags cmd) "unflagged") opts in
  if FlaggedOnly opts && UnflaggedOnly opts then
    throw (exitError "general_error"
             "--flagged and --unflagged are mutually exclusive" "")
  else
    opts <- (let beforeStr := pflag.GetString (Flags cmd) "before" in
             if negb (isEmpty (TrimSpace beforeStr)) then
               let beforeStr := TrimSpace beforeStr in
               match parseDate beforeStr with
               | Err err =>
                   throw (exitError "general_error"
                            ("invalid --before date: " ++ err)
                            "Use RFC 3339 format (e.g. 2026-01-15T00:00:00Z) or a bare date (e.g. 2026-01-15)")
               | Ok t => ret (set_Before (Some t) opts)
               end
             else ret opts) ;;
    opts <- (let afterStr := pflag.GetString (Flags cmd) "after" in
             if negb (isEmpty (TrimSpace afterStr)) then
               let afterStr := TrimSpace afterStr in
               match parseDate afterStr with
               | Err err =>
                   throw (exitError "general_error"
                            ("invalid --after date: " ++ err)
                            "Use RFC 3339 format (e.g. 2026-01-15T00:00:00Z) or a bare date (e.g. 2026-01-15)")
               | Ok t => ret (set_After (Some t) opts)
               end
             else ret opts) ;;
    let mailboxName := pflag.GetString (Flags cmd) "mailbox" in
    if negb (isEmpty (TrimSpace mailboxName)) then
      let mailboxName := TrimSpace mailboxName in
      r <- call (ResolveMailboxID c mailboxName) ;;
      match r with
      | Err err => throw (exitError "not_found" err "")
      | Ok mailboxID => ret (set_MailboxID mailboxID opts)
      end
    else ret opts.

(** [resolveEmailIDs] returns the identifiers given as arguments, or
    queries them using the filter flags. *)
Definition resolveEmailIDs (cmd : Command) (args : list string) (c : Client)
  : M (list string) :=
  if (0 <? length args)%nat then ret args
  else
    opts <- parseFilterOptions cmd c ;;
    r <- call (QueryEmailIDs c opts) ;;
    match r with
    | Err err => throw (exitError "jmap_error" err "")
    | Ok ids =>
        if (length ids =? 0)%nat then
          throw (exitError "not_found" "no emails matched the given filters" "")
        else ret ids
    end.

End Filters.

(** ** The commands of cmd/filters_test.go *)

Definition newFilterTestCommand (withDestinationTo : bool) : option Command :=
  let cmd := mkCommand "test" pflag.NewFlagSet in
  f ← (if withDestinationTo
       then pflag.String (Flags cmd) "to" "" "target mailbox name or ID (required)"
       else Some (Flags cmd));
  addFilterFlags (withFlags cmd f).

Definition emptyCommand : Command := mkCommand "test" pflag.NewFlagSet.

(** A command with the recipient [--to], and one with a destination
    [--to] as [move] has it. *)
Definition filterCmd : Command := default emptyCommand (newFilterTestCommand false).
Definition moveLikeCmd : Command := default emptyCommand (newFilterTestCommand true).

(** A server that knows one mailbox and answers every query with two
    identifiers, and one that finds nothing. *)
Definition demoClient : Client :=
  mkClient
    (fun name => if eqb name "inbox" then Ok "mb-inbox-id"
                 else Err ("mailbox not found: " ++ name))
    (fun _ => Ok ["M1"; "M2"]).

Definition emptyClient : Client :=
  mkClient (fun name => Ok "mb-inbox-id") (fun _ => Ok []).

(** ** The move command and its destination gate *)

Module Move.

(** Modelled from the spec: the roles and the mailbox entity of the data
    model. *)
Inductive Role : Type :=
| RoleInbox | RoleArchive | RoleJunk | RoleDrafts | RoleTrash | RoleSent
| RoleOther (name : string).

Record Mailbox : Type := mkMailbox {
  ID : string;
  Name : string;
  MailboxRole : option Role;
  ParentID : option string;
  TotalEmails : nat;
  UnreadEmails : nat
}.

Inductive Error : Type :=
| MailboxNotFound
| ForbiddenDestination.

(** Modelled from the spec: the calls of the move command. Resolving the
    destination and fetching summaries read, [EmailSet] mutates. *)
Inductive Call : Type :=
| MailboxGet (nameOrID : string)
| EmailGet (ids : list string)
| EmailSet (ids : list string) (destination : string).

Definition mutating (c : Call) : bool :=
  match c with
  | EmailSet _ _ => true
  | _ => false
  end.

Definition EqualFold (a b : string) : bool :=
  eqb (ToLowerASCII a) (ToLowerASCII b).

Definition forbiddenNames : list string :=
  ["Trash"; "Deleted Items"; "Deleted Messages"].

Definition isTrashRole (r : option Role) : bool :=
  match r with
  | Some RoleTrash => true
  | _ => false
  end.

(** Modelled from the spec: [ValidateTargetMailbox] of
    internal/client/safety.go is not among the sources. The resolved
    destination must not have role trash and its name must not
    case-insensitively equal Trash, Deleted Items or Deleted Messages. *)
Definition ValidateTargetMailbox (mb : Mailbox) : option Error :=
  if isTrashRole (MailboxRole mb) || existsb (EqualFold (Name mb)) forbiddenNames
  then Some ForbiddenDestination
  else None.

Definition batchSize : nat := 50.

Fixpoint batches (fuel : nat) (ids : list string) : list (list string) :=
  match fuel, ids with
  | 0%nat, _ => []
  | _, [] => []
  | S fuel', _ => take batchSize ids :: batches fuel' (drop batchSize ids)
  end.

(** Modelled from the spec: the move command (cmd/move.go and the client
    behind it) is not among the sources. The destination is resolved by
    a read-only call, the gate is applied to the resolved mailbox, and
    only then one mutation per batch of fifty identifiers is issued, or
    one read-only fetch in a dry run. *)
Definition move (resolveMailbox : string -> option Mailbox)
  (ids : list string) (to : string) (dryRun : bool) (log : list Call)
  : result Error Mailbox * list Call :=
  let log := (log ++ [MailboxGet to])%list in
  match resolveMailbox to with
  | None => (Err MailboxNotFound, log)
  | Some mb =>
      match ValidateTargetMailbox mb with
      | Some e => (Err e, log)
      | None =>
          if dryRun then (Ok mb, (log ++ [EmailGet ids])%list)
          else (Ok mb,
                (log ++ map (fun b => EmailSet b (ID mb))
                          (batches (length ids) ids))%list)
      end
  end.

Definition mutations (log : list Call) : list Call :=
  List.filter mutating log.

Definition trashBox : Mailbox :=
  mkMailbox "mb-9" "Papierkorb" (Some RoleTrash) None 3 0.
Definition deletedItemsBox : Mailbox :=
  mkMailbox "mb-7" "DELETED items" None None 0 0.
Definition receiptsBox : Mailbox :=
  mkMailbox "mb-4" "Receipts" None None 12 1.

Definition demoResolve (name : string) : option Mailbox :=
  if eqb name "bin" then Some trashBox
  else if eqb name "old" then Some deletedItemsBox
  else if eqb name "Receipts" then Some receiptsBox
  else None.

End Move.

(** ** The draft creation gate *)

Module Draft.

(** Modelled from the spec: the part of an email object the gate
    inspects. *)
Record Email : Type := mkEmail {
  MailboxIDs : gmap string bool;
  Keywords : gmap string bool;
  Subject : string
}.

(** Modelled from the spec: an [Email/set] request, with the objects to
    create by creation key, the patches to apply by identifier and the
    identifiers to destroy. *)
Record EmailSet : Type := mkEmailSet {
  Create : gmap string Email;
  Update : gmap string (gmap string bool);
  Destroy : list string
}.

Inductive Error : Type := UnsafeDraftRequest.

Definition draftKeyword : string := "$draft".

(** Modelled from the spec: the body of [ValidateSetForDraft]
    (internal/client/safety.go) is not among the sources; the plan lists
    its five checks in this order: destroy empty, update empty, exactly
    one create entry, whose mailbox identifiers are exactly the drafts
    mailbox mapped to true, and whose keywords map the draft marker to
    true. *)
Definition ValidateSetForDraft (set : EmailSet) (draftsMailboxID : string)
  : option Error :=
  if negb (length (Destroy set) =? 0)%nat then Some UnsafeDraftRequest
  else if negb (size (Update set) =? 0)%nat then Some UnsafeDraftRequest
  else match map_to_list (Create set) with
       | [(_, e)] =>
           if negb (bool_decide (MailboxIDs e = {[draftsMailboxID := true]}))
           then Some UnsafeDraftRequest
           else if negb (bool_decide (Keywords e !! draftKeyword = Some true))
                then Some UnsafeDraftRequest
                else None
       | _ => Some UnsafeDraftRequest
       end.

(** Modelled from the spec: steps 7 and 8 of [CreateDraft]
    (internal/client/draft.go, not among the sources): the request is
    validated, and sent only when the gate accepts it. The log holds the
    requests sent. *)
Definition sendDraft (set : EmailSet) (draftsMailboxID : string)
  (log : list EmailSet) : result Error unit * list EmailSet :=
  match ValidateSetForDraft set draftsMailboxID with
  | Some e => (Err e, log)
  | None => (Ok tt, (log ++ [set])%list)
  end.

(** What the gate demands of a request. *)
Definition safeDraft (set : EmailSet) (draftsMailboxID : string) : Prop :=
  (exists key e,
      Create set = {[key := e]}
      /\ MailboxIDs e = {[draftsMailboxID := true]}
      /\ Keywords e !! draftKeyword = Some true)
  /\ Update set = ∅
  /\ Destroy set = [].

Definition goodEmail : Email :=
  mkEmail {[ "mb-drafts" := true ]}
    (<[ "$seen" := true ]> {[ draftKeyword := true ]}) "Re: Meeting".

Definition goodSet : EmailSet := mkEmailSet {[ "draft" := goodEmail ]} ∅ [].

Definition twoBoxesEmail : Email :=
  mkEmail (<[ "mb-inbox" := true ]> {[ "mb-drafts" := true ]})
    {[ draftKeyword := true ]} "Re: Meeting".

Definition twoBoxesSet : EmailSet :=
  mkEmailSet {[ "draft" := twoBoxesEmail ]} ∅ [].

Definition destroyingSet : EmailSet :=
  mkEmailSet {[ "draft" := goodEmail ]} ∅ ["M1"].

End Draft.

(** ** Statements about the flags of a command *)

(** The string is empty or made of white space only. *)
Definition blank (s : string) : Prop := onlySpace (list_ascii_of_string s).

(** The flag [name] of [cmd] is an active filter: it was set on the
    command line, and either it is one of the string filters with a value
    that is not blank ([--to] counting only where it is the recipient
    filter), or it is one of the boolean filters with the value true. *)
Definition activeFilter (cmd : Command) (name : string) : Prop :=
  exists f,
    pflag.formal (Flags cmd) !! name = Some f
    /\ pflag.Changed f = true
    /\ ((In name stringFilterNames
         /\ (name = "to" -> pflag.Usage f = recipientToUsage)
         /\ exists s, pflag.Val f = pflag.stringValue s /\ ~ blank s)
        \/ (In name boolFilterNames /\ pflag.Val f = pflag.boolValue true)).

(** Both [--flagged] and [--unflagged] hold true. *)
Definition flagsConflict (cmd : Command) : bool :=
  pflag.GetBool (Flags cmd) "flagged" && pflag.GetBool (Flags cmd) "unflagged".

(** The target rule read as: both selectors fail as ambiguous, neither
    fails as missing, and every other command line passes. *)
Definition targetRuleAsStated : Prop :=
  forall (cmd : Command) (args : list string),
    (args <> [] -> hasFilterFlags cmd = true ->
     validateIDsOrFilters cmd args = Some AmbiguousTargets)
    /\ (args = [] -> hasFilterFlags cmd = false ->
        validateIDsOrFilters cmd args = Some NoTargets)
    /\ (negb (0 <? length args)%nat = hasFilterFlags cmd ->
        validateIDsOrFilters cmd args = None).

(** A command line with no identifier and both flag-state filters set. *)
Definition bothFlagsCmd : Command :=
  SetFlag (SetFlag filterCmd "flagged" "true") "unflagged" "true".

(** Further command lines: [--unread], an unreadable [--before], and a
    readable bare date. *)
Definition unreadCmd : Command := SetFlag filterCmd "unread" "true".
Definition unreadOpts : SearchOptions := set_bools false true false false client.zero.
Definition bareDateCmd : Command := SetFlag filterCmd "before" " 2026-01-15 ".

(** The [--to] flag as [move] registers it and as [addFilterFlags] does. *)
Definition destinationToFlag : pflag.Flag :=
  pflag.mkFlag "to" "" "target mailbox name or ID (required)"
    (pflag.stringValue "") false.
Definition recipientToFlag : pflag.Flag :=
  pflag.mkFlag "to" "" recipientToUsage (pflag.stringValue "") false.

(** * Facts *)

(** ** White space *)

Lemma space2_start (c1 c2 : ascii) :
  space2 c1 c2 = true -> asciiSpace c1 = false.
Proof.
  unfold space2, asciiSpace. intros H.
  apply andb_true_iff in H as [H _]. apply N.eqb_eq in H. now rewrite H.
Qed.

Lemma space3_start (c1 c2 c3 : ascii) :
  space3 c1 c2 c3 = true ->
  asciiSpace c1 = false /\ forall c, space2 c1 c = false.
Proof.
  unfold space3, space2, asciiSpace. intros H.
  assert (Hc : (code c1 = 225 \/ code c1 = 226 \/ code c1 = 227)%N).
  { repeat (apply orb_true_iff in H as [H | H]);
      repeat (apply andb_true_iff in H as [H ?]);
      apply N.eqb_eq in H; auto. }
  destruct Hc as [-> | [-> | ->]]; split; reflexivity.
Qed.

Lemma trimLeft_onlySpace (l : list ascii) : onlySpace l -> trimLeft l = [].
Proof.
  induction 1 as [| c r Hc _ IH | c1 c2 r Hc _ IH | c1 c2 c3 r Hc _ IH]; cbn.
  - reflexivity.
  - now rewrite Hc.
  - now rewrite (space2_start _ _ Hc), Hc.
  - destruct (space3_start _ _ _ Hc) as [H1 H2]. now rewrite H1, H2, Hc.
Qed.

(** What [trimLeft] leaves is a suffix reached over white space, and it
    is not trimmed further. *)
Lemma trimLeft_split (n : nat) (l : list ascii) :
  (length l <= n)%nat ->
  exists p, l = (p ++ trimLeft l)%list /\ onlySpace p
            /\ trimLeft (trimLeft l) = trimLeft l.
Proof.
  revert l. induction n as [| n IH]; intros l Hlen.
  - destruct l; [| simpl in Hlen; lia].
    exists []. repeat split. constructor.
  - destruct l as [| c1 r1]; [exists []; repeat split; constructor |].
    cbn [trimLeft]. destruct (asciiSpace c1) eqn:H1.
    { destruct (IH r1) as [p [Hp [Hs Hi]]]; [simpl in Hlen; lia |].
      exists (c1 :: p). split; [cbn; now rewrite <- Hp |].
      split; [now constructor | exact Hi]. }
    destruct r1 as [| c2 r2].
    { exists []. split; [reflexivity |]. split; [constructor |].
      cbn. now rewrite H1. }
    destruct (space2 c1 c2) eqn:H2.
    { destruct (IH r2) as [p [Hp [Hs Hi]]]; [simpl in Hlen; lia |].
      exists (c1 :: c2 :: p). split; [cbn; now rewrite <- Hp |].
      split; [now constructor | exact Hi]. }
    destruct r2 as [| c3 r3].
    { exists []. split; [reflexivity |]. split; [constructor |].
      cbn. now rewrite H1, H2. }
    destruct (space3 c1 c2 c3) eqn:H3.
    { destruct (IH r3) as [p [Hp [Hs Hi]]]; [simpl in Hlen; lia |].
      exists (c1 :: c2 :: c3 :: p). split; [cbn; now rewrite <- Hp |].
      split; [now constructor | exact Hi]. }
    exists []. split; [reflexivity |]. split; [constructor |].
    cbn. now rewrite H1, H2, H3.
Qed.

Lemma onlySpace_app (a b : list ascii) :
  onlySpace a -> onlySpace b -> onlySpace (a ++ b)%list.
Proof.
  induction 1 as [| c r Hc _ IH | c1 c2 r Hc _ IH | c1 c2 c3 r Hc _ IH];
    intros Hb; cbn.
  - assumption.
  - apply onlySpace_1; auto.
  - apply onlySpace_2; auto.
  - apply onlySpace_3; auto.
Qed.

Lemma trimLeftRev_nil (n : nat) (l : list ascii) :
  (length l <= n)%nat -> trimLeftRev l = [] -> onlySpace (rev l).
Proof.
  revert l. induction n as [| n IH]; intros l Hlen.
  - destruct l; [constructor | simpl in Hlen; lia].
  - destruct l as [| c1 r1]; [constructor |].
    cbn [trimLeftRev]. destruct (asciiSpace c1) eqn:H1.
    { intros H. cbn [rev]. apply onlySpace_app.
      - apply IH; [simpl in Hlen; lia | exact H].
      - constructor; [exact H1 | constructor]. }
    destruct r1 as [| c2 r2]; [discriminate |].
    destruct (space2 c2 c1) eqn:H2.
    { intros H. cbn [rev].
      replace ((rev r2 ++ [c2]) ++ [c1])%list
        with (rev r2 ++ [c2; c1])%list by (now rewrite <- !app_assoc).
      apply onlySpace_app.
      - apply IH; [simpl in Hlen; lia | exact H].
      - apply onlySpace_2; [exact H2 | constructor]. }
    destruct r2 as [| c3 r3]; [discriminate |].
    destruct (space3 c3 c2 c1) eqn:H3; [| discriminate].
    intros H. cbn [rev].
    replace (((rev r3 ++ [c3]) ++ [c2]) ++ [c1])%list
      with (rev r3 ++ [c3; c2; c1])%list by (now rewrite <- !app_assoc).
    apply onlySpace_app.
    + apply IH; [simpl in Hlen; lia | exact H].
    + apply onlySpace_3; [exact H3 | constructor].
Qed.

Lemma string_of_list_ascii_nil (l : list ascii) :
  string_of_list_ascii l = "" -> l = [].
Proof. destruct l; [reflexivity | discriminate]. Qed.

(** [TrimSpace] answers the empty string exactly on the strings made of
    white space only. *)
Lemma TrimSpace_empty (s : string) :
  TrimSpace s = "" <-> onlySpace (list_ascii_of_string s).
Proof.
  unfold TrimSpace. set (l := list_ascii_of_string s). split.
  - intros H. apply string_of_list_ascii_nil in H.
    assert (Hr : trimLeftRev (rev (trimLeft l)) = []).
    { destruct (trimLeftRev (rev (trimLeft l))) as [| x y] eqn:E; [reflexivity |].
      cbn in H. now destruct (rev y). }
    apply (trimLeftRev_nil _ _ (Nat.le_refl _)) in Hr.
    rewrite rev_involutive in Hr. apply trimLeft_onlySpace in Hr.
    destruct (trimLeft_split _ l (Nat.le_refl _)) as [p [Hp [Hs Hi]]].
    rewrite Hi in Hr. rewrite Hr, app_nil_r in Hp. now rewrite Hp.
  - intros H. now rewrite (trimLeft_onlySpace _ H).
Qed.

Lemma not_blank (s : string) : ~ blank s <-> negb (isEmpty (TrimSpace s)) = true.
Proof.
  unfold blank, isEmpty, eqb. rewrite negb_true_iff, bool_decide_eq_false.
  now rewrite TrimSpace_empty.
Qed.

(** ** Strings and flags *)

Lemma eqb_eq (a b : string) : eqb a b = true <-> a = b.
Proof. unfold eqb. apply bool_decide_eq_true. Qed.

Lemma eqb_neq (a b : string) : eqb a b = false <-> a <> b.
Proof. unfold eqb. apply bool_decide_eq_false. Qed.


Lemma existsb_eqb_In (name : string) (l : list string) :
  existsb (eqb name) l = true <-> In name l.
Proof.
  rewrite existsb_exists. split.
  - intros [x [Hin Heq]]. apply eqb_eq in Heq. now subst.
  - intros Hin. exists name. split; [assumption | now apply eqb_eq].
Qed.

Lemma bool_names_not_string (name : string) :
  In name boolFilterNames -> existsb (eqb name) stringFilterNames = false.
Proof.
  intros Hin. simpl in Hin.
  repeat (destruct Hin as [<- | Hin]; [reflexivity |]).
  contradiction.
Qed.

Lemma GetString_formal (f : pflag.FlagSet) (name : string) (flag : pflag.Flag) :
  pflag.formal f !! name = Some flag ->
  pflag.GetString f name
  = match pflag.Val flag with pflag.stringValue s => s | _ => "" end.
Proof.
  intros H. unfold pflag.GetString. rewrite H. now destruct flag as [? ? ? [] ?].
Qed.

Lemma GetBool_formal (f : pflag.FlagSet) (name : string) (flag : pflag.Flag) :
  pflag.formal f !! name = Some flag ->
  pflag.GetBool f name
  = match pflag.Val flag with pflag.boolValue b => b | _ => false end.
Proof.
  intros H. unfold pflag.GetBool. rewrite H. now destruct flag as [? ? ? [] ?].
Qed.

Lemma isRecipient_formal (cmd : Command) (flag : pflag.Flag) :
  pflag.formal (Flags cmd) !! "to" = Some flag ->
  isRecipientToFilterFlag cmd = eqb (pflag.Usage flag) recipientToUsage.
Proof.
  intros H. unfold isRecipientToFilterFlag, pflag.Lookup. now rewrite H.
Qed.

(** One turn of the loop of [hasFilterFlags] answers true exactly for an
    active filter. *)
Lemma hasFilterFlags_loop_cons (cmd : Command) (name : string) (rest : list string) :
  hasFilterFlags_loop cmd (name :: rest) = true
  <-> activeFilter cmd name \/ hasFilterFlags_loop cmd rest = true.
Proof.
  cbn [hasFilterFlags_loop]. unfold pflag.Lookup, pflag.FlagSet_Changed, activeFilter.
  destruct (pflag.formal (Flags cmd) !! name) as [f |] eqn:Hf.
  2: { split; [tauto | intros [[f [Hf' _]] | H]; [discriminate | exact H]]. }
  destruct (pflag.Changed f) eqn:Hch; cbn [negb].
  2: { split; [tauto |].
       intros [[f' [Hf' [Hch' _]]] | H]; [| exact H].
       injection Hf' as <-. congruence. }
  destruct (existsb (eqb name) stringFilterNames) eqn:Hstr.
  - apply existsb_eqb_In in Hstr.
    destruct (eqb name "to" && negb (isRecipientToFilterFlag cmd)) eqn:Hto.
    + apply andb_true_iff in Hto as [Hname Hrec].
      apply eqb_eq in Hname. subst name.
      rewrite (isRecipient_formal _ _ Hf) in Hrec.
      apply negb_true_iff, eqb_neq in Hrec.
      split; [tauto |].
      intros [[f' [Hf' [_ [[_ [Hu _]] | [Hb _]]]]] | H]; [| | exact H].
      * injection Hf' as <-. now specialize (Hu eq_refl).
      * apply bool_names_not_string in Hb.
        apply existsb_eqb_In in Hstr. congruence.
    + rewrite (GetString_formal _ _ _ Hf).
      destruct (negb (isEmpty (TrimSpace
                  match pflag.Val f with pflag.stringValue s => s | _ => "" end)))
        eqn:Hval.
      * split; [intros _ | reflexivity]. left.
        exists f. split; [reflexivity |]. split; [assumption |]. left.
        split; [assumption |]. split.
        -- intros ->. apply andb_false_iff in Hto as [Hto | Hto].
           ++ now apply eqb_neq in Hto.
           ++ apply negb_false_iff in Hto.
              rewrite (isRecipient_formal _ _ Hf) in Hto. now apply eqb_eq.
        -- destruct (pflag.Val f) as [s | b]; [| discriminate].
           exists s. split; [reflexivity | now apply not_blank].
      * split; [tauto |].
        intros [[f' [Hf' [_ [[_ [_ [s [Hs Hne]]]] | [Hb _]]]]] | H]; [| | exact H].
        -- injection Hf' as <-. rewrite Hs in Hval.
           apply not_blank in Hne. congruence.
        -- apply bool_names_not_string in Hb.
           apply existsb_eqb_In in Hstr. congruence.
  - destruct (existsb (eqb name) boolFilterNames) eqn:Hbool.
    + apply existsb_eqb_In in Hbool.
      rewrite (GetBool_formal _ _ _ Hf).
      destruct (pflag.Val f) as [s | [|]] eqn:Hv.
      * split; [tauto |].
        intros [[f' [Hf' [_ [[Hs _] | [_ Hb]]]]] | H]; [| | exact H].
        -- apply existsb_eqb_In in Hs. congruence.
        -- injection Hf' as <-. congruence.
      * split; [intros _ | reflexivity]. left.
        exists f. repeat split; try assumption. now right.
      * split; [tauto |].
        intros [[f' [Hf' [_ [[Hs _] | [_ Hb]]]]] | H]; [| | exact H].
        -- apply existsb_eqb_In in Hs. congruence.
        -- injection Hf' as <-. congruence.
    + split; [tauto |].
      intros [[f' [_ [_ [[Hs _] | [Hb _]]]]] | H]; [| | exact H].
      * apply existsb_eqb_In in Hs. congruence.
      * apply existsb_eqb_In in Hb. congruence.
Qed.

Lemma hasFilterFlags_loop_true (cmd : Command) (names : list string) :
  hasFilterFlags_loop cmd names = true
  <-> exists name, In name names /\ activeFilter cmd name.
Proof.
  induction names as [| name rest IH].
  - simpl. split; [discriminate | intros [? [[] _]]].
  - rewrite hasFilterFlags_loop_cons, IH. split.
    + intros [H | [n [Hin H]]].
      * exists name. split; [now left | assumption].
      * exists n. split; [now right | assumption].
    + intros [n [[-> | Hin] H]].
      * now left.
      * right. now exists n.
Qed.

(** C8. A filter flag that was not set, a string filter whose value is
    empty or white space only, and a boolean filter set to false are all
    absent: [hasFilterFlags] answers true if and only if some filter flag
    was set to a string that is not blank, or to the boolean true. *)
Theorem hasFilterFlags_active (cmd : Command) :
  ((forall name f,
       In name filterFlagNames ->
       pflag.formal (Flags cmd) !! name = Some f ->
       pflag.Changed f = false
       \/ (exists s, pflag.Val f = pflag.stringValue s /\ blank s)
       \/ pflag.Val f = pflag.boolValue false) ->
   hasFilterFlags cmd = false)
  /\ (hasFilterFlags cmd = true
      <-> exists name, In name filterFlagNames /\ activeFilter cmd name).
Proof.
  assert (Hiff : hasFilterFlags cmd = true
                 <-> exists name, In name filterFlagNames /\ activeFilter cmd name)
    by apply hasFilterFlags_loop_true.
  split; [| exact Hiff].
  intros Habsent. apply not_true_is_false. intros Htrue.
  apply Hiff in Htrue as [name [Hin [f [Hf [Hch Hval]]]]].
  destruct (Habsent name f Hin Hf) as [Hu | [[s [Hs Hb]] | Hb]].
  - congruence.
  - destruct Hval as [[_ [_ [s' [Hs' Hnb]]]] | [_ Hv]].
    + rewrite Hs in Hs'. injection Hs' as <-. contradiction.
    + congruence.
  - destruct Hval as [[_ [_ [s' [Hs' _]]]] | [_ Hv]]; congruence.
Qed.

(** ** Setting a flag *)

Lemma Set_formal_ne (f : pflag.FlagSet) (n v name : string) :
  name <> n ->
  pflag.formal (fst (pflag.Set_ f n v)) !! name = pflag.formal f !! name.
Proof.
  intros Hne. unfold pflag.Set_.
  destruct (pflag.formal f !! n) as [flag |]; [| reflexivity].
  destruct (pflag.Val flag); [| destruct (pflag.ParseBool v)];
    cbn [fst pflag.formal]; now rewrite lookup_insert_ne.
Qed.

Lemma Set_formal_eq (f : pflag.FlagSet) (n v : string) (flag : pflag.Flag) :
  pflag.formal f !! n = Some flag ->
  exists val ch,
    pflag.formal (fst (pflag.Set_ f n v)) !! n
    = Some (pflag.mkFlag (pflag.Name flag) (pflag.Shorthand flag)
              (pflag.Usage flag) val ch)
    /\ (forall s, pflag.Val flag = pflag.stringValue s ->
        val = pflag.stringValue v /\ ch = true).
Proof.
  intros H. unfold pflag.Set_. rewrite H.
  destruct (pflag.Val flag) as [s | b]; [| destruct (pflag.ParseBool v)];
    cbn [fst pflag.formal]; rewrite lookup_insert_eq;
    eexists _, _; (split; [reflexivity |]); intros s' Hs';
    try discriminate; now split.
Qed.

Lemma SetFlag_formal_ne (cmd : Command) (n v name : string) :
  name <> n ->
  pflag.formal (Flags (SetFlag cmd n v)) !! name = pflag.formal (Flags cmd) !! name.
Proof. intros H. unfold SetFlag, withFlags. cbn [Flags]. now apply Set_formal_ne. Qed.

Lemma GetString_SetFlag_ne (cmd : Command) (n v name : string) :
  name <> n ->
  pflag.GetString (Flags (SetFlag cmd n v)) name = pflag.GetString (Flags cmd) name.
Proof. intros H. unfold pflag.GetString. now rewrite SetFlag_formal_ne. Qed.

Lemma GetBool_SetFlag_ne (cmd : Command) (n v name : string) :
  name <> n ->
  pflag.GetBool (Flags (SetFlag cmd n v)) name = pflag.GetBool (Flags cmd) name.
Proof. intros H. unfold pflag.GetBool. now rewrite SetFlag_formal_ne. Qed.

Lemma isRecipient_SetFlag_to (cmd : Command) (v : string) :
  isRecipientToFilterFlag (SetFlag cmd "to" v) = isRecipientToFilterFlag cmd.
Proof.
  unfold isRecipientToFilterFlag, pflag.Lookup.
  destruct (pflag.formal (Flags cmd) !! "to") as [flag |] eqn:Hf.
  - destruct (Set_formal_eq (Flags cmd) "to" v flag Hf) as [val [ch [H _]]].
    unfold SetFlag, withFlags. cbn [Flags]. now rewrite H.
  - unfold SetFlag, withFlags, pflag.Set_. cbn [Flags]. rewrite Hf.
    cbn [fst]. now rewrite Hf.
Qed.

Lemma activeFilter_SetFlag_ne (cmd : Command) (n v name : string) :
  name <> n -> activeFilter (SetFlag cmd n v) name <-> activeFilter cmd name.
Proof.
  intros Hne. unfold activeFilter. now rewrite SetFlag_formal_ne.
Qed.

Lemma activeFilter_to_recipient (cmd : Command) :
  activeFilter cmd "to" -> isRecipientToFilterFlag cmd = true.
Proof.
  intros [f [Hf [_ [[_ [Hu _]] | [Hb _]]]]].
  - rewrite (isRecipient_formal _ _ Hf). apply eqb_eq. now apply Hu.
  - simpl in Hb. repeat (destruct Hb as [Hb | Hb]; [discriminate |]). contradiction.
Qed.

(** Where [--to] is not the recipient filter, its value does not change
    the answer of [hasFilterFlags]. *)
Lemma hasFilterFlags_SetFlag_to (cmd : Command) (v : string) :
  isRecipientToFilterFlag cmd = false ->
  hasFilterFlags (SetFlag cmd "to" v) = hasFilterFlags cmd.
Proof.
  intros Hrec. apply eq_iff_eq_true.
  unfold hasFilterFlags. rewrite !hasFilterFlags_loop_true.
  split; intros [name [Hin Hact]]; exists name; (split; [assumption |]).
  - destruct (decide (name = "to")) as [-> | Hne].
    + apply activeFilter_to_recipient in Hact.
      rewrite isRecipient_SetFlag_to in Hact. congruence.
    + now apply activeFilter_SetFlag_ne in Hact.
  - destruct (decide (name = "to")) as [-> | Hne].
    + apply activeFilter_to_recipient in Hact. congruence.
    + now apply activeFilter_SetFlag_ne.
Qed.

(** ** Target validation *)

Lemma length_pos_false {A : Type} (l : list A) : (0 <? length l)%nat = false <-> l = [].
Proof.
  destruct l; simpl; split; intros H; try reflexivity; try discriminate.
Qed.

Lemma length_pos_true {A : Type} (l : list A) : (0 <? length l)%nat = true <-> l <> [].
Proof.
  destruct l; simpl; split; intros H; try reflexivity; try discriminate.
  now elim H.
Qed.

(** C3, as the code has it. With both identifiers and an active filter
    the validation fails as ambiguous; with neither it fails for want of
    targets; with exactly one of the two it passes unless [--flagged] and
    [--unflagged] are both true, which fails as conflicting filters. *)
Theorem validateIDsOrFilters_cases (cmd : Command) (args : list string) :
  (args <> [] -> hasFilterFlags cmd = true ->
   validateIDsOrFilters cmd args = Some AmbiguousTargets)
  /\ (args = [] -> hasFilterFlags cmd = false ->
      validateIDsOrFilters cmd args = Some NoTargets)
  /\ (negb (0 <? length args)%nat = hasFilterFlags cmd ->
      validateIDsOrFilters cmd args
      = if flagsConflict cmd then Some ConflictingFilters else None).
Proof.
  unfold validateIDsOrFilters, flagsConflict. repeat split.
  - intros Hargs Hf. apply length_pos_true in Hargs. now rewrite Hargs, Hf.
  - intros Hargs Hf. apply length_pos_false in Hargs. now rewrite Hargs, Hf.
  - intros Hx. rewrite <- Hx.
    destruct (0 <? length args)%nat; cbn [negb andb];
      destruct (pflag.GetBool (Flags cmd) "flagged" && pflag.GetBool (Flags cmd) "unflagged");
      reflexivity.
Qed.

(** C3, counterexample. With no identifier, [--flagged] and [--unflagged]
    both set to true, filters are active and exactly one selector is
    given, yet the validation does not pass. *)
Lemma targetRuleAsStated_fails : ~ targetRuleAsStated.
Proof.
  intros H. destruct (H bothFlagsCmd []) as [_ [_ Hpass]].
  assert (Hx : negb (0 <? length (@nil string))%nat = hasFilterFlags bothFlagsCmd)
    by (vm_compute; reflexivity).
  specialize (Hpass Hx). vm_compute in Hpass. discriminate.
Qed.

(** ** Filter parsing and target resolution *)

Section FilterFacts.

Variable time_Parse : string -> string -> result string Time.

Lemma parseFilterOptions_conflict (cmd : Command) (c : Client) (net : Net) :
  flagsConflict cmd = true ->
  parseFilterOptions time_Parse cmd c net = (Err ConflictingFilters, net).
Proof.
  unfold flagsConflict. intros H. unfold parseFilterOptions.
  cbn [FlaggedOnly UnflaggedOnly set_bools]. now rewrite H.
Qed.




(** The recipient of the options that [parseFilterOptions] answers. *)
Lemma parseFilterOptions_To (cmd : Command) (c : Client) (net net' : Net)
  (opts : SearchOptions) :
  parseFilterOptions time_Parse cmd c net = (Ok opts, net') ->
  To opts
  = if isRecipientToFilterFlag cmd
       && negb (isEmpty (TrimSpace (pflag.GetString (Flags cmd) "to")))
    then pflag.GetString (Flags cmd) "to" else "".
Proof.
  unfold parseFilterOptions.
  set (o := set_bools _ _ _ _ _).
  assert (HTo : To o
                = if isRecipientToFilterFlag cmd
                     && negb (isEmpty (TrimSpace (pflag.GetString (Flags cmd) "to")))
                  then pflag.GetString (Flags cmd) "to" else "").
  { subst o. cbn [To set_bools].
    repeat match goal with
      | |- context [if ?b then _ else _] => destruct b; cbn
      end; reflexivity. }
  clearbody o. rewrite <- HTo. clear HTo.
  unfold bind, throw, ret, call, ResolveMailboxID.
  repeat match goal with
    | |- context [if ?b then _ else _] => destruct b
    | |- context [match parseDate ?tp ?s with _ => _ end] =>
        destruct (parseDate tp s)
    | |- context [match mailboxAnswer ?c ?n with _ => _ end] =>
        destruct (mailboxAnswer c n)
    end;
    intros [= <- <-]; reflexivity.
Qed.

(** Where [--to] is not the recipient filter, its value does not change
    what [parseFilterOptions] does. *)
Lemma parseFilterOptions_SetFlag_to (cmd : Command) (v : string) (c : Client)
  (net : Net) :
  isRecipientToFilterFlag cmd = false ->
  parseFilterOptions time_Parse (SetFlag cmd "to" v) c net
  = parseFilterOptions time_Parse cmd c net.
Proof.
  intros Hrec. unfold parseFilterOptions.
  rewrite isRecipient_SetFlag_to, Hrec.
  rewrite !GetString_SetFlag_ne by discriminate.
  rewrite !GetBool_SetFlag_ne by discriminate.
  reflexivity.
Qed.

(** C4. Whenever [--flagged] and [--unflagged] are both true, building
    the search options fails with the conflicting-filters error, whatever
    the other flags hold and whatever the server would answer, and the
    target validation does not pass either. *)
Theorem flagged_unflagged_conflict (cmd : Command) (args : list string)
  (c : Client) (net : Net) :
  pflag.GetBool (Flags cmd) "flagged" = true ->
  pflag.GetBool (Flags cmd) "unflagged" = true ->
  parseFilterOptions time_Parse cmd c net = (Err ConflictingFilters, net)
  /\ (validateIDsOrFilters cmd args = Some AmbiguousTargets
      \/ validateIDsOrFilters cmd args = Some NoTargets
      \/ validateIDsOrFilters cmd args = Some ConflictingFilters).
Proof.
  intros Hf Hu. split.
  - apply parseFilterOptions_conflict. unfold flagsConflict. now rewrite Hf, Hu.
  - unfold validateIDsOrFilters. rewrite Hf, Hu.
    destruct (0 <? length args)%nat, (hasFilterFlags cmd); cbn; auto.
Qed.

(** C9. With one or more identifiers on the command line, target
    resolution answers exactly that list and issues no call. *)
Theorem resolveEmailIDs_args (cmd : Command) (args : list string) (c : Client)
  (net : Net) :
  args <> [] ->
  resolveEmailIDs time_Parse cmd args c net = (Ok args, net).
Proof.
  intros H. apply length_pos_true in H.
  unfold resolveEmailIDs. now rewrite H.
Qed.

(** C5. With no identifier on the command line, once the filters are
    parsed and the query is answered: an empty answer fails with the
    no-matches error, and any other answer is returned as it is, in the
    order of the query. *)
Theorem resolveEmailIDs_query (cmd : Command) (c : Client) (net net1 : Net)
  (opts : SearchOptions) (ids : list string) :
  parseFilterOptions time_Parse cmd c net = (Ok opts, net1) ->
  queryAnswer c opts = Ok ids ->
  resolveEmailIDs time_Parse cmd [] c net
  = (if (length ids =? 0)%nat then Err NoMatches else Ok ids,
     (net1 ++ [CallQueryEmailIDs opts])%list)
  /\ (ids = [] ->
      fst (resolveEmailIDs time_Parse cmd [] c net) = Err NoMatches)
  /\ (ids <> [] ->
      fst (resolveEmailIDs time_Parse cmd [] c net) = Ok ids).
Proof.
  intros Hp Hq.
  assert (Hrun : resolveEmailIDs time_Parse cmd [] c net
                 = (if (length ids =? 0)%nat then Err NoMatches else Ok ids,
                    (net1 ++ [CallQueryEmailIDs opts])%list)).
  { unfold resolveEmailIDs. cbn [length Nat.ltb Nat.leb].
    unfold bind at 1. rewrite Hp.
    unfold bind, call, QueryEmailIDs. rewrite Hq.
    destruct (length ids =? 0)%nat; reflexivity. }
  split; [exact Hrun |]. rewrite Hrun. cbn [fst]. split.
  - intros ->. reflexivity.
  - intros Hne. destruct ids; [now elim Hne | reflexivity].
Qed.



(** C10. On a command whose [--to] is a destination flag (its usage is
    not the recipient usage), the value given to [--to] changes neither
    the answer of [hasFilterFlags] nor anything [parseFilterOptions]
    does, and the recipient of the parsed options is empty. On a command
    with the recipient [--to], a value that is not blank counts as an
    active filter and becomes the recipient of the parsed options. *)
Theorem to_flag_destination_or_recipient (cmd : Command) (f : pflag.Flag)
  (v : string) :
  pflag.Lookup (Flags cmd) "to" = Some f ->
  (pflag.Usage f <> recipientToUsage ->
   hasFilterFlags (SetFlag cmd "to" v) = hasFilterFlags cmd
   /\ forall c net,
        parseFilterOptions time_Parse (SetFlag cmd "to" v) c net
        = parseFilterOptions time_Parse cmd c net
        /\ forall opts net',
             parseFilterOptions time_Parse (SetFlag cmd "to" v) c net
             = (Ok opts, net') ->
             To opts = "")
  /\ (pflag.Usage f = recipientToUsage ->
      (exists s, pflag.Val f = pflag.stringValue s) ->
      ~ blank v ->
      hasFilterFlags (SetFlag cmd "to" v) = true
      /\ forall c net opts net',
           parseFilterOptions time_Parse (SetFlag cmd "to" v) c net
           = (Ok opts, net') ->
           To opts = v).
Proof.
  unfold pflag.Lookup. intros Hf. split.
  - intros Hu.
    assert (Hrec : isRecipientToFilterFlag cmd = false).
    { rewrite (isRecipient_formal _ _ Hf). now apply eqb_neq. }
    split; [now apply hasFilterFlags_SetFlag_to |].
    intros c net. split; [now apply parseFilterOptions_SetFlag_to |].
    intros opts net' Hrun. apply parseFilterOptions_To in Hrun.
    now rewrite isRecipient_SetFlag_to, Hrec in Hrun.
  - intros Hu [s Hs] Hv.
    destruct (Set_formal_eq (Flags cmd) "to" v f Hf) as [val [ch [Hset Hval]]].
    destruct (Hval s Hs) as [-> ->].
    assert (Hset' : pflag.formal (Flags (SetFlag cmd "to" v)) !! "to"
                    = Some (pflag.mkFlag (pflag.Name f) (pflag.Shorthand f)
                              (pflag.Usage f) (pflag.stringValue v) true))
      by exact Hset.
    split.
    + apply hasFilterFlags_loop_true. exists "to". split; [simpl; tauto |].
      eexists. split; [exact Hset' |]. split; [reflexivity |]. left.
      split; [simpl; tauto |]. split; [intros _; exact Hu |].
      now exists v.
    + intros c net opts net' Hrun. apply parseFilterOptions_To in Hrun.
      rewrite (isRecipient_formal _ _ Hset') in Hrun. cbn [pflag.Usage] in Hrun.
      rewrite (GetString_formal _ _ _ Hset') in Hrun. cbn [pflag.Val] in Hrun.
      apply eqb_eq in Hu. apply not_blank in Hv.
      now rewrite Hu, Hv in Hrun.
Qed.

End FilterFacts.

(** ** The destination gate of move *)

Lemma EqualFold_spec (a b : string) :
  Move.EqualFold a b = true <-> ToLowerASCII a = ToLowerASCII b.
Proof. unfold Move.EqualFold. apply eqb_eq. Qed.

Lemma ValidateTargetMailbox_forbidden (mb : Move.Mailbox) :
  Move.ValidateTargetMailbox mb = Some Move.ForbiddenDestination
  <-> (Move.MailboxRole mb = Some Move.RoleTrash
       \/ exists n, In n Move.forbiddenNames
                    /\ ToLowerASCII (Move.Name mb) = ToLowerASCII n).
Proof.
  unfold Move.ValidateTargetMailbox.
  destruct (Move.isTrashRole (Move.MailboxRole mb)
            || existsb (Move.EqualFold (Move.Name mb)) Move.forbiddenNames) eqn:H.
  - split; [intros _ | reflexivity].
    apply orb_true_iff in H as [H | H].
    + left. destruct (Move.MailboxRole mb) as [[] |]; try discriminate. reflexivity.
    + right. apply existsb_exists in H as [n [Hin Hn]].
      exists n. split; [assumption | now apply EqualFold_spec].
  - split; [discriminate |]. intros Hc. exfalso.
    apply orb_false_iff in H as [Hr Hn].
    destruct Hc as [Hc | [n [Hin Heq]]].
    + rewrite Hc in Hr. discriminate.
    + assert (Ht : existsb (Move.EqualFold (Move.Name mb)) Move.forbiddenNames = true).
      { apply existsb_exists. exists n. split; [assumption | now apply EqualFold_spec]. }
      congruence.
Qed.

Lemma mutations_app (l1 l2 : list Move.Call) :
  Move.mutations (l1 ++ l2)%list = (Move.mutations l1 ++ Move.mutations l2)%list.
Proof. unfold Move.mutations. apply List.filter_app. Qed.

(** C1. A move whose resolved destination has role trash, or a name equal
    up to case to Trash, Deleted Items or Deleted Messages, fails with
    ForbiddenDestination after the read-only lookup of the destination
    alone: no mutating call is added to the log, in a dry run or not. *)
Theorem move_forbidden_destination (resolveMailbox : string -> option Move.Mailbox)
  (ids : list string) (to : string) (dryRun : bool) (log : list Move.Call)
  (mb : Move.Mailbox) :
  resolveMailbox to = Some mb ->
  (Move.MailboxRole mb = Some Move.RoleTrash
   \/ exists n, In n Move.forbiddenNames
                /\ ToLowerASCII (Move.Name mb) = ToLowerASCII n) ->
  Move.move resolveMailbox ids to dryRun log
  = (Err Move.ForbiddenDestination, (log ++ [Move.MailboxGet to])%list)
  /\ Move.mutations (snd (Move.move resolveMailbox ids to dryRun log))
     = Move.mutations log.
Proof.
  intros Hres Hbad. apply ValidateTargetMailbox_forbidden in Hbad.
  assert (Hrun : Move.move resolveMailbox ids to dryRun log
                 = (Err Move.ForbiddenDestination, (log ++ [Move.MailboxGet to])%list)).
  { unfold Move.move. now rewrite Hres, Hbad. }
  split; [exact Hrun |].
  rewrite Hrun. cbn [snd]. rewrite mutations_app. cbn.
  apply app_nil_r.
Qed.

(** ** The draft creation gate *)

Lemma map_to_list_one {A : Type} (m : gmap string A) (k : string) (x : A) :
  map_to_list m = [(k, x)] <-> m = {[k := x]}.
Proof.
  split.
  - intros H. rewrite <- (list_to_map_to_list m), H. cbn.
    apply insert_empty.
  - intros ->. apply map_to_list_singleton.
Qed.

Lemma ValidateSetForDraft_error (set : Draft.EmailSet) (d : string) :
  Draft.ValidateSetForDraft set d = None
  \/ Draft.ValidateSetForDraft set d = Some Draft.UnsafeDraftRequest.
Proof. destruct (Draft.ValidateSetForDraft set d) as [[] |]; auto. Qed.

Lemma ValidateSetForDraft_safe (set : Draft.EmailSet) (d : string) :
  Draft.ValidateSetForDraft set d = None <-> Draft.safeDraft set d.
Proof.
  unfold Draft.ValidateSetForDraft, Draft.safeDraft. split.
  - destruct (Draft.Destroy set) as [| x l] eqn:Hd; cbn; [| discriminate].
    destruct (size (Draft.Update set) =? 0)%nat eqn:Hu; cbn; [| discriminate].
    apply Nat.eqb_eq, map_size_empty_iff in Hu.
    destruct (map_to_list (Draft.Create set)) as [| [k e] [| p l]] eqn:Hc;
      try discriminate.
    apply map_to_list_one in Hc.
    destruct (bool_decide (Draft.MailboxIDs e = {[d := true]})) eqn:Hm;
      cbn; [| discriminate].
    destruct (bool_decide (Draft.Keywords e !! Draft.draftKeyword = Some true)) eqn:Hk;
      cbn; [| discriminate].
    apply bool_decide_eq_true in Hm, Hk.
    intros _. split; [| split; [assumption | reflexivity]].
    exists k, e. auto.
  - intros [[k [e [Hc [Hm Hk]]]] [Hu Hd]].
    rewrite Hd, Hu. cbn. rewrite map_size_empty. cbn.
    apply map_to_list_one in Hc. rewrite Hc.
    apply (bool_decide_eq_true_2 _) in Hm. apply (bool_decide_eq_true_2 _) in Hk.
    now rewrite Hm, Hk.
Qed.

(** C2. The draft gate accepts a request if and only if it creates exactly
    one object, whose mailbox identifiers are exactly the drafts mailbox
    mapped to true and whose draft keyword is true, and it carries no
    update and no destroy; any other request is rejected as
    UnsafeDraftRequest and nothing is sent. *)
Theorem ValidateSetForDraft_accepts_iff (set : Draft.EmailSet) (d : string) :
  (Draft.ValidateSetForDraft set d = None <-> Draft.safeDraft set d)
  /\ (~ Draft.safeDraft set d ->
      Draft.ValidateSetForDraft set d = Some Draft.UnsafeDraftRequest
      /\ forall log,
           Draft.sendDraft set d log = (Err Draft.UnsafeDraftRequest, log))
  /\ (Draft.safeDraft set d ->
      forall log, Draft.sendDraft set d log = (Ok tt, (log ++ [set])%list)).
Proof.
  split; [apply ValidateSetForDraft_safe |]. split.
  - intros Hns.
    assert (Hr : Draft.ValidateSetForDraft set d = Some Draft.UnsafeDraftRequest).
    { destruct (ValidateSetForDraft_error set d) as [H | H]; [| exact H].
      apply ValidateSetForDraft_safe in H. contradiction. }
    split; [exact Hr |]. intros log. unfold Draft.sendDraft. now rewrite Hr.
  - intros Hs log. apply ValidateSetForDraft_safe in Hs.
    unfold Draft.sendDraft. now rewrite Hs.
Qed.

(** ** The reference parser *)

Lemma RefTime_date_only (s : string) (t : Time) :
  RefTime.Parse layoutDateOnly s = Ok t ->
  (hour t = 0 /\ minute t = 0 /\ second t = 0 /\ nanosecond t = 0
   /\ zoneOffset t = 0)%Z
  /\ exists e, RefTime.Parse time_RFC3339 s = Err e.
Proof.
  unfold RefTime.Parse.
  change (eqb layoutDateOnly time_RFC3339) with false.
  change (eqb layoutDateOnly layoutDateOnly) with true.
  change (eqb time_RFC3339 time_RFC3339) with true.
  cbv iota. unfold RefTime.parseDateOnly, RefTime.parseRFC3339.
  destruct (RefTime.parseDay (list_ascii_of_string s)) as [[[[y m] d] rest] |];
    cbn; [| discriminate].
  destruct rest; [| discriminate].
  intros [= <-]. cbn. split; [repeat split |]. eexists. reflexivity.
Qed.

(** With the reference parser a bare date is read as midnight UTC. *)
Lemma parseDate_RefTime_date_only (s : string) (t : Time) :
  RefTime.Parse layoutDateOnly s = Ok t ->
  parseDate RefTime.Parse s = Ok t
  /\ (hour t = 0 /\ minute t = 0 /\ second t = 0 /\ nanosecond t = 0
      /\ zoneOffset t = 0)%Z.
Proof.
  intros H. destruct (RefTime_date_only s t H) as [Hmid [e He]].
  split; [| exact Hmid].
  unfold parseDate. rewrite He.
  change "2006-01-02" with layoutDateOnly. now rewrite H.
Qed.

(** ** Concrete command lines *)

Lemma move_forbidden_destination_witness :
  Move.move Move.demoResolve ["M1"; "M2"] "old" false []
  = (Err Move.ForbiddenDestination, [Move.MailboxGet "old"])
  /\ Move.mutations (snd (Move.move Move.demoResolve ["M1"; "M2"] "old" false []))
     = Move.mutations [].
Proof.
  apply (move_forbidden_destination Move.demoResolve ["M1"; "M2"] "old" false []
           Move.deletedItemsBox).
  - reflexivity.
  - right. exists "Deleted Items". split; [simpl; tauto | reflexivity].
Defined.

Lemma ValidateSetForDraft_accepts_iff_witness :
  Draft.sendDraft Draft.goodSet "mb-drafts" [] = (Ok tt, [Draft.goodSet])
  /\ Draft.sendDraft Draft.twoBoxesSet "mb-drafts" []
     = (Err Draft.UnsafeDraftRequest, []).
Proof.
  split.
  - destruct (ValidateSetForDraft_accepts_iff Draft.goodSet "mb-drafts")
      as [Hiff [_ Hsend]].
    apply Hsend, Hiff. vm_compute. reflexivity.
  - destruct (ValidateSetForDraft_accepts_iff Draft.twoBoxesSet "mb-drafts")
      as [Hiff [Hrej _]].
    apply Hrej. intros Hs. apply Hiff in Hs. vm_compute in Hs. discriminate.
Defined.

Lemma validateIDsOrFilters_cases_witness :
  validateIDsOrFilters unreadCmd ["M1"] = Some AmbiguousTargets
  /\ validateIDsOrFilters filterCmd [] = Some NoTargets
  /\ validateIDsOrFilters unreadCmd [] = None
  /\ validateIDsOrFilters filterCmd ["M1"] = None
  /\ validateIDsOrFilters bothFlagsCmd [] = Some ConflictingFilters.
Proof.
  split; [| split; [| split; [| split]]].
  - apply (validateIDsOrFilters_cases unreadCmd ["M1"]);
      [discriminate | vm_compute; reflexivity].
  - apply (validateIDsOrFilters_cases filterCmd []);
      [reflexivity | vm_compute; reflexivity].
  - apply (validateIDsOrFilters_cases unreadCmd []). vm_compute. reflexivity.
  - apply (validateIDsOrFilters_cases filterCmd ["M1"]). vm_compute. reflexivity.
  - apply (validateIDsOrFilters_cases bothFlagsCmd []). vm_compute. reflexivity.
Defined.

Lemma flagged_unflagged_conflict_witness :
  parseFilterOptions RefTime.Parse bothFlagsCmd demoClient []
  = (Err ConflictingFilters, [])
  /\ (validateIDsOrFilters bothFlagsCmd ["M1"] = Some AmbiguousTargets
      \/ validateIDsOrFilters bothFlagsCmd ["M1"] = Some NoTargets
      \/ validateIDsOrFilters bothFlagsCmd ["M1"] = Some ConflictingFilters).
Proof.
  apply (flagged_unflagged_conflict RefTime.Parse bothFlagsCmd ["M1"] demoClient []).
  - vm_compute. reflexivity.
  - vm_compute. reflexivity.
Defined.

Lemma resolveEmailIDs_query_witness :
  fst (resolveEmailIDs RefTime.Parse unreadCmd [] emptyClient []) = Err NoMatches
  /\ fst (resolveEmailIDs RefTime.Parse unreadCmd [] demoClient [])
     = Ok ["M1"; "M2"].
Proof.
  split.
  - apply (resolveEmailIDs_query RefTime.Parse unreadCmd emptyClient [] []
             unreadOpts []);
      [vm_compute; reflexivity | reflexivity | reflexivity].
  - apply (resolveEmailIDs_query RefTime.Parse unreadCmd demoClient [] []
             unreadOpts ["M1"; "M2"]);
      [vm_compute; reflexivity | reflexivity | discriminate].
Defined.



Lemma hasFilterFlags_active_witness :
  hasFilterFlags unreadCmd = true.
Proof.
  apply (proj2 (hasFilterFlags_active unreadCmd)).
  exists "unread". split; [simpl; tauto |].
  eexists. split; [vm_compute; reflexivity |].
  split; [reflexivity |]. right. split; [simpl; tauto | reflexivity].
Defined.

Lemma resolveEmailIDs_args_witness :
  resolveEmailIDs RefTime.Parse filterCmd ["M1"; "M2"] demoClient []
  = (Ok ["M1"; "M2"], []).
Proof.
  apply (resolveEmailIDs_args RefTime.Parse filterCmd ["M1"; "M2"] demoClient []).
  discriminate.
Defined.

Lemma to_flag_destination_or_recipient_witness :
  hasFilterFlags (SetFlag moveLikeCmd "to" "Archive") = hasFilterFlags moveLikeCmd
  /\ hasFilterFlags (SetFlag filterCmd "to" "bob@example.com") = true.
Proof.
  split.
  - apply (to_flag_destination_or_recipient RefTime.Parse moveLikeCmd
             destinationToFlag "Archive").
    + vm_compute. reflexivity.
    + vm_compute. discriminate.
  - apply (to_flag_destination_or_recipient RefTime.Parse filterCmd
             recipientToFlag "bob@example.com").
    + vm_compute. reflexivity.
    + reflexivity.
    + exists "". reflexivity.
    + intros Hb. apply TrimSpace_empty in Hb. vm_compute in Hb. discriminate.
Defined.

(** ** The tests of cmd/filters_test.go, and further runs *)

Example newFilterTestCommand_registers :
  newFilterTestCommand false = Some filterCmd
  /\ newFilterTestCommand true = Some moveLikeCmd
  /\ pflag.Lookup (Flags filterCmd) "to" = Some recipientToFlag
  /\ pflag.Lookup (Flags moveLikeCmd) "to" = Some destinationToFlag.
Proof. repeat split; vm_compute; reflexivity. Qed.

Example addFilterFlags_twice_panics : addFilterFlags filterCmd = None.
Proof. vm_compute. reflexivity. Qed.

Example TestHasFilterFlags_IgnoresMoveDestinationTo :
  hasFilterFlags (SetFlag moveLikeCmd "to" "Archive") = false
  /\ hasFilterFlags (SetFlag (SetFlag moveLikeCmd "to" "Archive") "unread" "true")
     = true.
Proof. split; vm_compute; reflexivity. Qed.

Example TestParseFilterOptions_IgnoresMoveDestinationTo :
  parseFilterOptions RefTime.Parse
    (SetFlag (SetFlag moveLikeCmd "to" "Archive") "unread" "true") demoClient []
  = (Ok unreadOpts, []).
Proof. vm_compute. reflexivity. Qed.

Example TestHasFilterFlags_IgnoresFalseBooleanFilters :
  hasFilterFlags (SetFlag filterCmd "unread" "false") = false.
Proof. vm_compute. reflexivity. Qed.

Example TestValidateIDsOrFilters_EmptyStringFilterRejected :
  validateIDsOrFilters (SetFlag filterCmd "subject" "") [] = Some NoTargets.
Proof. vm_compute. reflexivity. Qed.

Example TestParseFilterOptions_RecipientToFilterStillWorks :
  parseFilterOptions RefTime.Parse (SetFlag filterCmd "to" "bob@example.com")
    demoClient []
  = (Ok (set_To "bob@example.com" client.zero), []).
Proof. vm_compute. reflexivity. Qed.

Example whitespace_only_filter_is_absent :
  hasFilterFlags (SetFlag filterCmd "subject" (bytes [32; 9; 194; 160]%N)) = false
  /\ hasFilterFlags (SetFlag filterCmd "subject" " x ") = true.
Proof. split; vm_compute; reflexivity. Qed.

Example TrimSpace_runs :
  TrimSpace "  a b  " = "a b"
  /\ TrimSpace (bytes [32; 9; 194; 160; 226; 128; 131]%N) = ""
  /\ TrimSpace (bytes [120; 194; 160; 227; 128; 128; 10]%N) = "x"
  /\ TrimSpace (bytes [194; 120; 128]%N) = bytes [194; 120; 128]%N.
Proof. repeat split; vm_compute; reflexivity. Qed.

Example RefTime_runs :
  RefTime.Parse layoutDateOnly "2026-01-15" = Ok (mkTime 2026 1 15 0 0 0 0 0)
  /\ RefTime.Parse time_RFC3339 "2026-01-15T10:30:00+02:00"
     = Ok (mkTime 2026 1 15 10 30 0 0 7200)
  /\ (exists e, RefTime.Parse time_RFC3339 "2026-01-15" = Err e)
  /\ (exists e, RefTime.Parse layoutDateOnly "2026-02-30" = Err e).
Proof.
  split; [| split; [| split]]; try (vm_compute; reflexivity);
    eexists; vm_compute; reflexivity.
Qed.

Example bare_date_filter :
  parseFilterOptions RefTime.Parse bareDateCmd demoClient []
  = (Ok (set_Before (Some (mkTime 2026 1 15 0 0 0 0 0)) client.zero), []).
Proof. vm_compute. reflexivity. Qed.

Example mailbox_filter_is_looked_up :
  resolveEmailIDs RefTime.Parse (SetFlag filterCmd "mailbox" " inbox ") [] demoClient []
  = (Ok ["M1"; "M2"],
     [CallResolveMailboxID "inbox";
      CallQueryEmailIDs (set_MailboxID "mb-inbox-id" client.zero)])
  /\ parseFilterOptions RefTime.Parse (SetFlag filterCmd "mailbox" "nowhere")
       demoClient []
     = (Err (exitError "not_found" "mailbox not found: nowhere" ""),
        [CallResolveMailboxID "nowhere"]).
Proof. split; vm_compute; reflexivity. Qed.

Example move_allowed_mutates :
  Move.move Move.demoResolve ["M1"; "M2"] "Receipts" false []
  = (Ok Move.receiptsBox,
     [Move.MailboxGet "Receipts"; Move.EmailSet ["M1"; "M2"] "mb-4"])
  /\ Move.move Move.demoResolve ["M1"; "M2"] "Receipts" true []
     = (Ok Move.receiptsBox,
        [Move.MailboxGet "Receipts"; Move.EmailGet ["M1"; "M2"]])
  /\ Move.move Move.demoResolve ["M1"] "bin" false []
     = (Err Move.ForbiddenDestination, [Move.MailboxGet "bin"]).
Proof. repeat split; vm_compute; reflexivity. Qed.

Example draft_gate_runs :
  Draft.ValidateSetForDraft Draft.goodSet "mb-drafts" = None
  /\ Draft.ValidateSetForDraft Draft.goodSet "mb-other"
     = Some Draft.UnsafeDraftRequest
  /\ Draft.ValidateSetForDraft Draft.twoBoxesSet "mb-drafts"
     = Some Draft.UnsafeDraftRequest
  /\ Draft.ValidateSetForDraft Draft.destroyingSet "mb-drafts"
     = Some Draft.UnsafeDraftRequest.
Proof. repeat split; vm_compute; reflexivity. Qed.
